(** * PDFViewer: the field editor of src/components/PDFViewer.tsx

    A shallow embedding of the React component [PDFViewer] and of its event
    handlers, with the properties of its in-memory field collection, of its
    overlay, of page navigation and of the save operation.

    Conventions of the embedding.
    - A JavaScript object is a finite map from property names to values
      ([gmap string jsval]); reading a missing property yields [JUndefined].
    - JavaScript numbers are represented by integers ([Z]); nothing below
      depends on fractional pixels or on rounding.
    - A handler closes over the state of the render it was created in and
      calls state setters; a synchronous handler is the list of setter calls
      it makes, committed in call order once the event has been dispatched.
    - An asynchronous handler runs in a small state-and-exception monad over
      the component state, the remote table, the issued requests and the
      notifications shown. *)

From stdpp Require Import base gmap strings list.
From Stdlib Require Import ZArith Lia.

Open Scope string_scope.
Open Scope list_scope.
Open Scope Z_scope.

(** ** JavaScript values and objects *)

Inductive jsval :=
| JUndefined
| JNum (n : Z)
| JStr (s : string).

#[global] Instance jsval_eq_dec : EqDecision jsval.
Proof. solve_decision. Defined.

(** [a === b] on the values above (numbers are integers here, so no NaN). *)
Definition strict_eq (a b : jsval) : bool := bool_decide (a = b).

(** A [PDFField] object ([../types]); its properties, as the component
    writes them: id, template_id, name, type, x, y, width, height, page. *)
Abbreviation PDFField := (gmap string jsval).

(** [field.k] *)
Definition prop (field : PDFField) (k : string) : jsval :=
  default JUndefined (field !! k).

(** [keyof PDFField] *)
Inductive PDFFieldKey :=
| K_id | K_template_id | K_name | K_type
| K_x | K_y | K_width | K_height | K_page.

Definition key_name (k : PDFFieldKey) : string :=
  match k with
  | K_id => "id"
  | K_template_id => "template_id"
  | K_name => "name"
  | K_type => "type"
  | K_x => "x"
  | K_y => "y"
  | K_width => "width"
  | K_height => "height"
  | K_page => "page"
  end.

Module PDFTemplate.
Record t := mk { id : string; file_url : string }.
End PDFTemplate.

(** ** Component state *)

Record State := mkState {
  numPages : Z;
  pageNumber : Z;
  fields : list PDFField;
  selectedField : option PDFField;
  isEditing : bool }.

(** [useState] initial values. *)
Definition initialState : State :=
  {| numPages := 0; pageNumber := 1; fields := [];
     selectedField := None; isEditing := false |}.

(** A call of one of the state setters the component declares. *)
Inductive update :=
| setNumPages (n : Z)
| setPageNumber (n : Z)
| setFields (l : list PDFField)
| setSelectedField (f : option PDFField)
| setIsEditing (b : bool).

Definition apply_update (st : State) (u : update) : State :=
  match u with
  | setNumPages n =>
      {| numPages := n; pageNumber := pageNumber st; fields := fields st;
         selectedField := selectedField st; isEditing := isEditing st |}
  | setPageNumber n =>
      {| numPages := numPages st; pageNumber := n; fields := fields st;
         selectedField := selectedField st; isEditing := isEditing st |}
  | setFields l =>
      {| numPages := numPages st; pageNumber := pageNumber st; fields := l;
         selectedField := selectedField st; isEditing := isEditing st |}
  | setSelectedField f =>
      {| numPages := numPages st; pageNumber := pageNumber st; fields := fields st;
         selectedField := f; isEditing := isEditing st |}
  | setIsEditing b =>
      {| numPages := numPages st; pageNumber := pageNumber st; fields := fields st;
         selectedField := selectedField st; isEditing := b |}
  end.

(** The setter calls of one event are applied in call order: a later call
    of the same setter overwrites an earlier one. *)
Definition commit (st : State) (us : list update) : State :=
  fold_left apply_update us st.

(** ** Browser inputs of a click *)

Record MouseEvent := mkMouseEvent { clientX : Z; clientY : Z }.
Record DOMRect := mkDOMRect { left : Z; top : Z }.

(** The identifiers of a field collection, in order. *)
Definition ids (l : list PDFField) : list jsval :=
  map (fun field => prop field "id") l.

Section Handlers.

Variable template : PDFTemplate.t.

Definition onDocumentLoadSuccess (n : Z) : list update :=
  [setNumPages n].

Definition handlePageChange (newPage : Z) : list update :=
  [setPageNumber newPage].

(** [random36] stands for the string [Math.random().toString(36)] of this
    call, for instance "0.i" when the draw is 0.5. *)
Definition new_id (random36 : string) : jsval :=
  JStr (String.substring 2 13 random36).

Definition newField (st : State) (rect : DOMRect) (e : MouseEvent)
    (random36 : string) : PDFField :=
  let x := clientX e - left rect in
  let y := clientY e - top rect in
  <["id" := new_id random36]>
  (<["template_id" := JStr (PDFTemplate.id template)]>
  (<["name" := JStr "New Field"]>
  (<["type" := JStr "editable"]>
  (<["x" := JNum x]>
  (<["y" := JNum y]>
  (<["width" := JNum 100]>
  (<["height" := JNum 20]>
  (<["page" := JNum (pageNumber st)]> ∅)))))))).

(** [containerRef_current] is [containerRef.current]: [None] for null,
    otherwise the element's bounding rectangle. *)
Definition handleAddField (st : State) (containerRef_current : option DOMRect)
    (e : MouseEvent) (random36 : string) : list update :=
  match containerRef_current with
  | None => []
  | Some rect =>
      let nf := newField st rect e random36 in
      [setFields (fields st ++ [nf]); setSelectedField (Some nf); setIsEditing true]
  end.

Definition handleFieldClick (field : PDFField) : list update :=
  [setSelectedField (Some field); setIsEditing true].

(** [value] is [e.target.value], always a string. *)
Definition handleFieldChange (st : State) (value : string) (fieldId : jsval)
    (key : PDFFieldKey) : list update :=
  [setFields
     (map (fun field =>
             if strict_eq (prop field "id") fieldId
             then <[key_name key := JStr value]> field
             else field)
          (fields st))].

Definition handleFieldDelete (st : State) (fieldId : jsval) : list update :=
  [setFields (filter (fun field => prop field "id" <> fieldId) (fields st));
   setSelectedField None;
   setIsEditing false].

End Handlers.

(** ** What the component renders *)

(** [selectedField?.id] *)
Definition selected_id (st : State) : jsval :=
  match selectedField st with
  | None => JUndefined
  | Some field => prop field "id"
  end.

(** The seven controls of the inspector form and the key each one passes
    to [handleFieldChange]. *)
Inductive InspectorInput :=
| NameInput | TypeSelect | XInput | YInput | WidthInput | HeightInput | PageInput.

Definition input_key (i : InspectorInput) : PDFFieldKey :=
  match i with
  | NameInput => K_name
  | TypeSelect => K_type
  | XInput => K_x
  | YInput => K_y
  | WidthInput => K_width
  | HeightInput => K_height
  | PageInput => K_page
  end.

(** One absolutely positioned [div] of the overlay. *)
Record Region := mkRegion {
  key : jsval;
  style_left : jsval;
  style_top : jsval;
  style_width : jsval;
  style_height : jsval;
  ring : bool;
  inspector : bool;
  onClick : list update }.

Definition region_of (st : State) (field : PDFField) : Region :=
  {| key := prop field "id";
     style_left := prop field "x";
     style_top := prop field "y";
     style_width := prop field "width";
     style_height := prop field "height";
     ring := strict_eq (selected_id st) (prop field "id");
     inspector := strict_eq (selected_id st) (prop field "id") && isEditing st;
     onClick := handleFieldClick field |}.

(** [fields.map((field) => <div ...>)] *)
Definition overlay (st : State) : list Region :=
  map (region_of st) (fields st).

(** The overlay as the specification words it: only the fields of the
    displayed page. *)
Definition overlay_of_current_page (st : State) : list Region :=
  map (region_of st)
      (filter (fun field => prop field "page" = JNum (pageNumber st)) (fields st)).

(** [disabled={pageNumber <= 1}] and [disabled={pageNumber >= numPages}] *)
Definition previous_disabled (st : State) : bool := pageNumber st <=? 1.
Definition next_disabled (st : State) : bool := pageNumber st >=? numPages st.

(** ** Dispatch of a click

    The container [div] carries [onClick={handleAddField}]; the field
    regions are its children and carry [handleFieldClick]; the trash button
    sits inside the region of the field whose inspector is open. No handler
    stops propagation, so a click runs the handlers from the target outwards,
    all of them closed over the same render. *)
Inductive target :=
| PageSurface
| FieldRegion (field : PDFField)
| TrashButton (field : PDFField).

Section Events.

Variable template : PDFTemplate.t.

Definition click_handlers (st : State) (containerRef_current : option DOMRect)
    (e : MouseEvent) (random36 : string) (t : target) : list update :=
  match t with
  | PageSurface =>
      handleAddField template st containerRef_current e random36
  | FieldRegion field =>
      handleFieldClick field
      ++ handleAddField template st containerRef_current e random36
  | TrashButton field =>
      handleFieldDelete st (prop field "id")
      ++ handleFieldClick field
      ++ handleAddField template st containerRef_current e random36
  end.

Definition click (st : State) (containerRef_current : option DOMRect)
    (e : MouseEvent) (random36 : string) (t : target) : State :=
  commit st (click_handlers st containerRef_current e random36 t).

(** Handler-level steps on the in-memory collection: one handler called
    on its own in the current render. The component calls [handleFieldDelete]
    only from the trash button, whose click runs further handlers: the
    events the component really dispatches are those of [event] below. *)
Inductive action :=
| Create (rect : DOMRect) (e : MouseEvent) (random36 : string)
| Edit (fieldId : jsval) (input : InspectorInput) (value : string)
| Delete (fieldId : jsval).

Definition step (st : State) (a : action) : State :=
  commit st
    match a with
    | Create rect e random36 => handleAddField template st (Some rect) e random36
    | Edit fieldId input value => handleFieldChange st value fieldId (input_key input)
    | Delete fieldId => handleFieldDelete st fieldId
    end.

Definition run (st : State) (acts : list action) : State :=
  fold_left step acts st.

(** Every [Create] of the sequence draws an identifier that no field of
    the collection carries at that moment. *)
Fixpoint fresh_draws (st : State) (acts : list action) : Prop :=
  match acts with
  | [] => True
  | a :: rest =>
      match a with
      | Create _ _ random36 => new_id random36 ∉ ids (fields st)
      | _ => True
      end
      /\ fresh_draws (step st a) rest
  end.

End Events.

#[global] Instance fresh_draws_dec (template : PDFTemplate.t) (st : State)
    (acts : list action) : Decision (fresh_draws template st acts).
Proof.
  revert st. induction acts as [|a acts IH]; intros st; simpl; [apply _|].
  destruct a; apply _.
Defined.

(** The two navigation buttons, outside the container; a disabled button
    dispatches nothing. *)
Inductive nav := Previous | Next.

Definition nav_click (st : State) (b : nav) : State :=
  commit st
    match b with
    | Previous => if previous_disabled st then [] else handlePageChange (pageNumber st - 1)
    | Next => if next_disabled st then [] else handlePageChange (pageNumber st + 1)
    end.

Definition navigate (st : State) (bs : list nav) : State :=
  fold_left nav_click bs st.

(** ** The remote table and the asynchronous handlers *)

Inductive exn :=
| ReferenceError (name : string)
| PostgrestError (msg : string).

(** [error.message] *)
Definition message (e : exn) : string :=
  match e with
  | ReferenceError name => name +:+ " is not defined"
  | PostgrestError msg => msg
  end.

Inductive toast :=
| toast_error (msg : string)
| toast_success (msg : string).

(** The three requests on [pdf_fields] the component builds. *)
Inductive request :=
| Select (template_id : jsval)
| DeleteWhere (template_id : jsval)
| Insert (rows : list PDFField).

(** How the store answers a request: it carries it out, it answers with an
    [error] object, or the awaited promise rejects. *)
Inductive failure :=
| ErrorObject
| Rejection.

Inductive reply :=
| Succeeds
| Fails (how : failure) (msg : string).

Record System := mkSystem {
  ui : State;
  table : list PDFField;
  next_id : Z;
  replies : list reply;
  requests : list request;
  toasts : list toast }.

(** The awaited value [{ data, error }]. *)
Record Response := mkResponse {
  data : option (list PDFField);
  error : option exn }.

Inductive result (A : Type) :=
| Ok (a : A)
| Throw (e : exn).
Arguments Ok {A} a.
Arguments Throw {A} e.

Definition M (A : Type) : Type := System -> result A * System.

Definition ret {A} (a : A) : M A := fun s => (Ok a, s).

Definition bind {A B} (m : M A) (k : A -> M B) : M B :=
  fun s =>
    match m s with
    | (Ok a, s') => k a s'
    | (Throw e, s') => (Throw e, s')
    end.

Definition throw {A} (e : exn) : M A := fun s => (Throw e, s).

(** [try { body } catch (error) { handler }] *)
Definition try_catch {A} (body : M A) (handler : exn -> M A) : M A :=
  fun s =>
    match body s with
    | (Ok a, s') => (Ok a, s')
    | (Throw e, s') => handler e s'
    end.

(** [try { body } finally { final }]: [final] always runs; when it
    completes normally the completion of [body] stands. *)
Definition try_finally {A} (body : M A) (final : M unit) : M A :=
  fun s =>
    match body s with
    | (r, s') =>
        match final s' with
        | (Ok _, s'') => (r, s'')
        | (Throw e, s'') => (Throw e, s'')
        end
    end.

#[global] Instance M_ret : MRet M := @ret.
#[global] Instance M_bind : MBind M := fun A B k m => bind m k.

(** A state setter called after an [await]. *)
Definition set (u : update) : M unit :=
  fun s =>
    (Ok tt,
     {| ui := apply_update (ui s) u; table := table s; next_id := next_id s;
        replies := replies s; requests := requests s; toasts := toasts s |}).

Definition show (t : toast) : M unit :=
  fun s =>
    (Ok tt,
     {| ui := ui s; table := table s; next_id := next_id s;
        replies := replies s; requests := requests s; toasts := toasts s ++ [t] |}).

(** Modelled from the spec: the remote store behind the [supabase] client
    of [../lib/supabase] (section 6: select, delete and insert of fields
    scoped by template identifier). The request body is JSON, which omits
    the properties whose value is [undefined]; the store gives a row that
    arrives without [id] an identifier of its own. *)
Definition json (row : PDFField) : PDFField :=
  filter (fun kv => kv.2 <> JUndefined) row.

(** Modelled from the spec: the store assigns identifiers [n], [n + 1], ...
    to the inserted rows that carry none. *)
Fixpoint store_rows (n : Z) (rows : list PDFField) : list PDFField :=
  match rows with
  | [] => []
  | row :: rest =>
      match row !! "id" with
      | Some _ => row :: store_rows n rest
      | None => <["id" := JNum n]> row :: store_rows (n + 1) rest
      end
  end.

(** Modelled from the spec: a request that the store carries out. Select
    returns the rows of the template, delete removes them, insert appends
    the rows of the request body. *)
Definition serve (q : request) (s : System) : Response * System :=
  match q with
  | Select T =>
      ({| data := Some (filter (fun row => prop row "template_id" = T) (table s));
          error := None |},
       s)
  | DeleteWhere T =>
      ({| data := None; error := None |},
       {| ui := ui s;
          table := filter (fun row => prop row "template_id" <> T) (table s);
          next_id := next_id s; replies := replies s;
          requests := requests s; toasts := toasts s |})
  | Insert rows =>
      ({| data := None; error := None |},
       {| ui := ui s;
          table := table s ++ store_rows (next_id s) (map json rows);
          next_id := next_id s + Z.of_nat (length rows); replies := replies s;
          requests := requests s; toasts := toasts s |})
  end.

Definition log_request (q : request) (s : System) : System :=
  {| ui := ui s; table := table s; next_id := next_id s;
     replies := tail (replies s); requests := requests s ++ [q];
     toasts := toasts s |}.

(** [await supabase.from('pdf_fields')...]: the request is logged, the next
    scripted reply decides its outcome (a success when none is left). *)
Definition await (q : request) : M Response :=
  fun s =>
    let s1 := log_request q s in
    match head (replies s) with
    | None | Some Succeeds =>
        let '(r, s2) := serve q s1 in (Ok r, s2)
    | Some (Fails ErrorObject msg) =>
        (Ok {| data := None; error := Some (PostgrestError msg) |}, s1)
    | Some (Fails Rejection msg) =>
        (Throw (PostgrestError msg), s1)
    end.

(** The system [s] with the replies to the coming requests set to [rs]. *)
Definition scripted (rs : list reply) (s : System) : System :=
  {| ui := ui s; table := table s; next_id := next_id s;
     replies := rs; requests := requests s; toasts := toasts s |}.

(** Unfold the monad to run a handler on a system whose replies are known. *)
Ltac run_handler :=
  unfold try_catch, mbind, M_bind, bind, await, throw, show, set, scripted;
  simpl.

(** Identifiers bound at module level (value imports and the exported
    function) and inside the body of [PDFViewer]. The type-only imports
    [PDFTemplate] and [PDFField] bind no value; the browser's global object
    has no property named [setIsUploading] or [isUploading]. *)
Definition module_bindings : list string :=
  ["React"; "useState"; "useEffect"; "useRef"; "Document"; "Page"; "pdfjs";
   "Pencil"; "Trash2"; "Plus"; "toast"; "supabase"; "PDFViewer"].

Definition component_bindings : list string :=
  ["template";
   "numPages"; "setNumPages"; "pageNumber"; "setPageNumber";
   "fields"; "setFields"; "selectedField"; "setSelectedField";
   "isEditing"; "setIsEditing"; "containerRef";
   "loadFields"; "onDocumentLoadSuccess"; "handlePageChange";
   "handleAddField"; "handleFieldClick"; "handleFieldChange";
   "handleFieldDelete"; "handleSaveFields"].

Definition declared (x : string) : bool :=
  bool_decide (x ∈ component_bindings ++ module_bindings).

(** A call [x(...)] of an identifier that is not one of the modelled
    setters: evaluating an undeclared identifier throws; a declared one is
    some binding without effect on the modelled state. *)
Definition call_identifier (x : string) : M unit :=
  if declared x then ret tt else throw (ReferenceError x).

Section Async.

Variable template : PDFTemplate.t.

Definition loadFields : M unit :=
  try_catch
    (r ← await (Select (JStr (PDFTemplate.id template)));
     match error r with
     | Some e => throw e
     | None => set (setFields (default [] (data r)))
     end)
    (fun e => show (toast_error (message e))).

(** [{ ...field, template_id: template.id, id: undefined }] *)
Definition insert_row (field : PDFField) : PDFField :=
  <["id" := JUndefined]> (<["template_id" := JStr (PDFTemplate.id template)]> field).

(** The [try { ... } catch (error) { toast.error(error.message) }] of
    [handleSaveFields]; [st] is the render the handler closes over. *)
Definition handleSaveFields_try (st : State) : M unit :=
  try_catch
    (d ← await (DeleteWhere (JStr (PDFTemplate.id template)));
     match error d with
     | Some deleteError => throw deleteError
     | None =>
         i ← await (Insert (map insert_row (fields st)));
         match error i with
         | Some insertError => throw insertError
         | None => show (toast_success "Fields saved successfully")
         end
     end)
    (fun e => show (toast_error (message e))).

Definition handleSaveFields (st : State) : M unit :=
  call_identifier "setIsUploading";;
  try_finally (handleSaveFields_try st) (call_identifier "setIsUploading").

End Async.

(** ** Sessions

    The events the rendered component reacts to synchronously: a click
    inside the mounted container, a change of an inspector control, a
    click on a navigation button, the document reporting its page count. *)
Inductive event :=
| Click (rect : DOMRect) (e : MouseEvent) (random36 : string) (t : target)
| Change (fieldId : jsval) (input : InspectorInput) (value : string)
| Navigate (b : nav)
| DocumentLoaded (n : Z).

Definition handle (template : PDFTemplate.t) (st : State) (ev : event) : State :=
  match ev with
  | Click rect e random36 t => click template st (Some rect) e random36 t
  | Change fieldId input value =>
      commit st (handleFieldChange st value fieldId (input_key input))
  | Navigate b => nav_click st b
  | DocumentLoaded n => commit st (onDocumentLoadSuccess n)
  end.

Definition session (template : PDFTemplate.t) (st : State) (evs : list event) : State :=
  fold_left (handle template) evs st.

Definition is_click (ev : event) : bool :=
  match ev with
  | Click _ _ _ _ => true
  | _ => false
  end.

(** Every click of the session draws an identifier that no field of the
    collection carries at that moment. *)
Fixpoint fresh_clicks (template : PDFTemplate.t) (st : State) (evs : list event) : Prop :=
  match evs with
  | [] => True
  | ev :: rest =>
      match ev with
      | Click _ _ random36 _ => new_id random36 ∉ ids (fields st)
      | _ => True
      end
      /\ fresh_clicks template (handle template st ev) rest
  end.

#[global] Instance fresh_clicks_dec (template : PDFTemplate.t) (st : State)
    (evs : list event) : Decision (fresh_clicks template st evs).
Proof.
  revert st. induction evs as [|ev evs IH]; intros st; simpl; [apply _|].
  destruct ev; apply _.
Defined.

(** The number of clicks inside the container among [evs]. *)
Definition clicks (evs : list event) : nat :=
  length (filter (fun ev => is_click ev = true) evs).

(** ** A concrete session

    The scenario of the specification: a template without stored fields,
    displayed on page 2, and one click at (40, 60) relative to the surface. *)

Definition template1 : PDFTemplate.t :=
  PDFTemplate.mk "T1" "https://example.org/form.pdf".

Definition rect0 : DOMRect := {| left := 10; top := 20 |}.
Definition pointer_50_80 : MouseEvent := {| clientX := 50; clientY := 80 |}.
Definition pointer_55_85 : MouseEvent := {| clientX := 55; clientY := 85 |}.

Definition page2 : State :=
  {| numPages := 3; pageNumber := 2; fields := [];
     selectedField := None; isEditing := false |}.

(** The draw 0.5 prints as "0.i" in base 36. *)
Definition field_40_60 : PDFField :=
  newField template1 page2 rect0 pointer_50_80 "0.i".

Definition one_field : State :=
  click template1 page2 (Some rect0) pointer_50_80 "0.i" PageSurface.

Definition back_on_page1 : State := nav_click one_field Previous.

(** A second click on the surface, at (200, 140), then the pointer on the
    trash button of the inspector that opened on the second field. *)
Definition pointer_210_160 : MouseEvent := {| clientX := 210; clientY := 160 |}.
Definition pointer_215_165 : MouseEvent := {| clientX := 215; clientY := 165 |}.

Definition field_200_140 : PDFField :=
  newField template1 one_field rect0 pointer_210_160 "0.7k".

Definition two_fields : State :=
  click template1 one_field (Some rect0) pointer_210_160 "0.7k" PageSurface.

Definition stored_row : PDFField :=
  <["id" := JNum 7]> (<["template_id" := JStr "T1"]> (<["name" := JStr "Old"]> ∅)).

Definition system1 : System :=
  {| ui := one_field; table := [stored_row]; next_id := 8;
     replies := []; requests := []; toasts := [] |}.

(** * Properties *)

(** ** Committing setter calls *)

Lemma commit_app (st : State) (us vs : list update) :
  commit st (us ++ vs) = commit (commit st us) vs.
Proof. unfold commit. apply fold_left_app. Qed.

Lemma newField_lookup (template : PDFTemplate.t) (st : State) (rect : DOMRect)
    (e : MouseEvent) (random36 : string) :
  let nf := newField template st rect e random36 in
  nf !! "id" = Some (new_id random36)
  /\ nf !! "template_id" = Some (JStr (PDFTemplate.id template))
  /\ nf !! "name" = Some (JStr "New Field")
  /\ nf !! "type" = Some (JStr "editable")
  /\ nf !! "x" = Some (JNum (clientX e - left rect))
  /\ nf !! "y" = Some (JNum (clientY e - top rect))
  /\ nf !! "width" = Some (JNum 100)
  /\ nf !! "height" = Some (JNum 20)
  /\ nf !! "page" = Some (JNum (pageNumber st)).
Proof. unfold newField. repeat split; by simplify_map_eq. Qed.

(** ** Creating a field *)

(** C4. A click on the document surface (the container is mounted, with
    bounding rectangle [rect]) appends exactly one field to the collection:
    x and y are the pointer coordinates relative to the surface, width 100,
    height 20, type "editable", name "New Field", page the displayed page,
    template_id the identifier of the current template. That field becomes
    the selected field and edit mode becomes true. *)
Theorem click_on_surface_creates_field (template : PDFTemplate.t) (st : State)
    (rect : DOMRect) (e : MouseEvent) (random36 : string) :
  let cx := clientX e - left rect in
  let cy := clientY e - top rect in
  let st' := click template st (Some rect) e random36 PageSurface in
  exists nf : PDFField,
    fields st' = fields st ++ [nf]
    /\ nf !! "x" = Some (JNum cx)
    /\ nf !! "y" = Some (JNum cy)
    /\ nf !! "width" = Some (JNum 100)
    /\ nf !! "height" = Some (JNum 20)
    /\ nf !! "type" = Some (JStr "editable")
    /\ nf !! "name" = Some (JStr "New Field")
    /\ nf !! "page" = Some (JNum (pageNumber st))
    /\ nf !! "template_id" = Some (JStr (PDFTemplate.id template))
    /\ selectedField st' = Some nf
    /\ isEditing st' = true
    /\ pageNumber st' = pageNumber st
    /\ numPages st' = numPages st.
Proof.
  intros cx cy st'.
  exists (newField template st rect e random36).
  destruct (newField_lookup template st rect e random36)
    as (_ & Htid & Hname & Htype & Hx & Hy & Hw & Hh & Hp).
  subst st'. unfold click, click_handlers, handleAddField, commit. simpl.
  repeat split; assumption.
Qed.

(** ** Editing a field *)

Lemma handleFieldChange_fields (st : State) (v : string) (I : jsval) (K : PDFFieldKey) :
  fields (commit st (handleFieldChange st v I K))
  = map (fun field =>
           if strict_eq (prop field "id") I
           then <[key_name K := JStr v]> field else field)
        (fields st).
Proof. reflexivity. Qed.

(** C5. An inspector edit of attribute [K] with value [v] bound to
    identifier [I] keeps the length and the order of the collection; the
    entry at each position whose identifier is not [I] is unchanged; at a
    position whose identifier is [I], attribute [K] becomes [v] and every
    other attribute keeps its value. Selection, edit mode and page are
    unchanged. *)
Theorem edit_changes_only_that_attribute (st : State) (I : jsval)
    (K : PDFFieldKey) (v : string) :
  let st' := commit st (handleFieldChange st v I K) in
  length (fields st') = length (fields st)
  /\ (forall (i : nat) (f : PDFField),
        fields st !! i = Some f ->
        exists f' : PDFField,
          fields st' !! i = Some f'
          /\ (prop f "id" <> I -> f' = f)
          /\ (prop f "id" = I ->
              f' !! key_name K = Some (JStr v)
              /\ forall k : string, k <> key_name K -> f' !! k = f !! k))
  /\ selectedField st' = selectedField st
  /\ isEditing st' = isEditing st
  /\ pageNumber st' = pageNumber st
  /\ numPages st' = numPages st.
Proof.
  intros st'. subst st'. rewrite handleFieldChange_fields.
  split; [apply length_map|].
  split; [|by repeat split].
  intros i f Hi.
  rewrite list_lookup_fmap, Hi. simpl.
  eexists; split; [reflexivity|].
  unfold strict_eq. split; intros Hid.
  - by rewrite bool_decide_eq_false_2.
  - rewrite bool_decide_eq_true_2 by done. split.
    + apply lookup_insert_eq.
    + intros k Hk. by apply lookup_insert_ne.
Qed.

(** ** Deleting a field *)

Lemma filter_other_ids (I : jsval) (l : list PDFField) :
  I ∉ ids l ->
  filter (fun field => prop field "id" <> I) l = l.
Proof.
  induction l as [|f l IH]; intros Hnot; [done|].
  simpl in Hnot. apply not_elem_of_cons in Hnot as [Hne Hl].
  rewrite filter_cons_True by congruence.
  by rewrite IH.
Qed.

Lemma filter_unique_id (I : jsval) (l : list PDFField) :
  NoDup (ids l) ->
  I ∈ ids l ->
  exists (l1 : list PDFField) (f : PDFField) (l2 : list PDFField),
    l = l1 ++ f :: l2
    /\ prop f "id" = I
    /\ (I ∉ ids (l1 ++ l2))
    /\ filter (fun field => prop field "id" <> I) l = l1 ++ l2.
Proof.
  induction l as [|g l IH]; intros Hnd Hin; [by apply elem_of_nil in Hin|].
  simpl in Hnd, Hin. apply NoDup_cons in Hnd as [Hg Hnd].
  destruct (decide (prop g "id" = I)) as [Heq|Hne].
  - exists [], g, l. subst I. simpl.
    repeat split; try done.
    rewrite filter_cons_False by (intros H; apply H; reflexivity).
    by apply filter_other_ids.
  - apply elem_of_cons in Hin as [Hin|Hin]; [congruence|].
    destruct (IH Hnd Hin) as (l1 & f & l2 & -> & Hf & Hnot & Hfil).
    exists (g :: l1), f, l2. simpl. repeat split; try done.
    + apply not_elem_of_cons. split; [congruence|done].
    + rewrite filter_cons_True by done. by rewrite Hfil.
Qed.

(** Handler level: the setter calls of [handleFieldDelete] on their own.
    In a collection with pairwise-distinct identifiers that contains
    identifier [I] they remove exactly one entry, the one whose identifier is
    [I]; the entries before and after it stay, in order and unchanged; the
    selection is cleared and edit mode is left. *)
Lemma delete_removes_exactly_that_field (st : State) (I : jsval) :
  NoDup (ids (fields st)) ->
  I ∈ ids (fields st) ->
  let st' := commit st (handleFieldDelete st I) in
  (exists (l1 : list PDFField) (f : PDFField) (l2 : list PDFField),
      fields st = l1 ++ f :: l2
      /\ prop f "id" = I
      /\ fields st' = l1 ++ l2
      /\ I ∉ ids (fields st'))
  /\ S (length (fields st')) = length (fields st)
  /\ selectedField st' = None
  /\ isEditing st' = false
  /\ pageNumber st' = pageNumber st
  /\ numPages st' = numPages st.
Proof.
  intros Hnd Hin st'.
  destruct (filter_unique_id I (fields st) Hnd Hin) as (l1 & f & l2 & Hl & Hf & Hnot & Hfil).
  assert (Hst' : fields st' = l1 ++ l2) by (subst st'; simpl; exact Hfil).
  split; [|split].
  - exists l1, f, l2. rewrite Hst'. by repeat split.
  - rewrite Hst', Hl, !length_app. simpl. lia.
  - by repeat split.
Qed.

(** ** Uniqueness of identifiers *)

Lemma ids_app (l k : list PDFField) : ids (l ++ k) = ids l ++ ids k.
Proof. unfold ids. apply map_app. Qed.

Lemma inspector_key_not_id (input : InspectorInput) :
  key_name (input_key input) <> "id".
Proof. by destruct input. Qed.

Lemma ids_edit (I : jsval) (input : InspectorInput) (v : string) (l : list PDFField) :
  ids (map (fun field =>
              if strict_eq (prop field "id") I
              then <[key_name (input_key input) := JStr v]> field else field) l)
  = ids l.
Proof.
  unfold ids. rewrite map_map. apply map_ext. intros f.
  destruct (strict_eq (prop f "id") I); [|done].
  unfold prop. rewrite lookup_insert_ne; [done|]. apply inspector_key_not_id.
Qed.

Lemma ids_filter_NoDup (P : PDFField -> Prop) `{!forall f, Decision (P f)}
    (l : list PDFField) :
  NoDup (ids l) -> NoDup (ids (filter P l)).
Proof.
  intros Hnd. apply (sublist_NoDup _ (ids l)); [done|].
  unfold ids. apply (fmap_sublist (fun field : PDFField => prop field "id")), sublist_filter.
Qed.

Lemma ids_snoc_NoDup (l : list PDFField) (f : PDFField) :
  NoDup (ids l) -> prop f "id" ∉ ids l -> NoDup (ids (l ++ [f])).
Proof.
  intros Hnd Hfresh. rewrite ids_app. apply NoDup_app.
  split; [done|]. split.
  - intros x Hx Hin. simpl in Hin. apply list_elem_of_singleton in Hin. by subst.
  - simpl. apply NoDup_singleton.
Qed.

Lemma newField_id (template : PDFTemplate.t) (st : State) (rect : DOMRect)
    (e : MouseEvent) (random36 : string) :
  prop (newField template st rect e random36) "id" = new_id random36.
Proof. unfold prop, newField. by rewrite lookup_insert_eq. Qed.

Lemma step_keeps_ids_unique (template : PDFTemplate.t) (st : State) (a : action) :
  NoDup (ids (fields st)) ->
  match a with
  | Create _ _ random36 => new_id random36 ∉ ids (fields st)
  | _ => True
  end ->
  NoDup (ids (fields (step template st a))).
Proof.
  intros Hnd Hfresh. destruct a as [rect e random36|I input v|I]; simpl.
  - apply ids_snoc_NoDup; [done|]. by rewrite newField_id.
  - by rewrite ids_edit.
  - by apply ids_filter_NoDup.
Qed.

(** Handler level: along any sequence of handler steps that starts from
    pairwise-distinct identifiers, the identifiers stay pairwise distinct
    provided each [handleAddField] draws an identifier that no field of the
    collection carries at that moment. *)
Lemma ids_stay_unique_with_fresh_draws (template : PDFTemplate.t) (st : State)
    (acts : list action) :
  NoDup (ids (fields st)) ->
  fresh_draws template st acts ->
  NoDup (ids (fields (run template st acts))).
Proof.
  revert st. induction acts as [|a acts IH]; intros st Hnd Hfresh; [done|].
  destruct Hfresh as [Ha Hrest]. simpl.
  apply IH; [|done]. by apply step_keeps_ids_unique.
Qed.

(** ** The overlay *)

Lemma overlay_lookup (st : State) (i : nat) :
  overlay st !! i = region_of st <$> fields st !! i.
Proof. unfold overlay. apply list_lookup_fmap. Qed.

(** C7, as the code has it. The overlay holds one clickable region per
    field of the in-memory collection, in collection order and whatever the
    field's page: the region of a field sits at the field's stored x/y
    offset, has its stored width/height, is keyed by its identifier and its
    click handler selects that field. *)
Theorem overlay_renders_every_field (st : State) :
  length (overlay st) = length (fields st)
  /\ forall (i : nat) (f : PDFField),
       fields st !! i = Some f ->
       exists r : Region,
         overlay st !! i = Some r
         /\ key r = prop f "id"
         /\ style_left r = prop f "x"
         /\ style_top r = prop f "y"
         /\ style_width r = prop f "width"
         /\ style_height r = prop f "height"
         /\ onClick r = handleFieldClick f.
Proof.
  split; [apply length_map|].
  intros i f Hi. exists (region_of st f).
  rewrite overlay_lookup, Hi. by repeat split.
Qed.

(** ** Clicks that bubble *)

Lemma click_on_field_region (template : PDFTemplate.t) (st : State) (rect : DOMRect)
    (e : MouseEvent) (random36 : string) (field : PDFField) :
  let st' := click template st (Some rect) e random36 (FieldRegion field) in
  let nf := newField template st rect e random36 in
  fields st' = fields st ++ [nf]
  /\ selectedField st' = Some nf
  /\ isEditing st' = true.
Proof. by repeat split. Qed.

Lemma click_on_trash_button (template : PDFTemplate.t) (st : State) (rect : DOMRect)
    (e : MouseEvent) (random36 : string) (field : PDFField) :
  let st' := click template st (Some rect) e random36 (TrashButton field) in
  let nf := newField template st rect e random36 in
  fields st' = fields st ++ [nf]
  /\ selectedField st' = Some nf
  /\ isEditing st' = true.
Proof. by repeat split. Qed.

(** ** Page navigation *)

Lemma nav_click_in_range (st : State) (b : nav) :
  1 <= pageNumber st <= numPages st ->
  1 <= pageNumber (nav_click st b) <= numPages (nav_click st b)
  /\ numPages (nav_click st b) = numPages st.
Proof.
  intros Hr. unfold nav_click, previous_disabled, next_disabled.
  destruct b.
  - destruct (Z.leb_spec (pageNumber st) 1); simpl; lia.
  - destruct (Z.geb_spec (pageNumber st) (numPages st)); simpl; lia.
Qed.

Lemma nav_click_enabled (st : State) :
  (previous_disabled st = false ->
   pageNumber (nav_click st Previous) = pageNumber st - 1)
  /\ (next_disabled st = false ->
      pageNumber (nav_click st Next) = pageNumber st + 1).
Proof. unfold nav_click. split; intros ->; reflexivity. Qed.

(** C10. In a state whose page number lies in [1, numPages], "Previous" is
    disabled exactly when the page is 1 and "Next" exactly when the page is
    numPages; after any sequence of clicks on the navigation buttons (a
    disabled button dispatches nothing) the page number is still in
    [1, numPages] and numPages is unchanged. *)
Theorem navigation_stays_in_range (st : State) :
  1 <= pageNumber st <= numPages st ->
  (previous_disabled st = true <-> pageNumber st = 1)
  /\ (next_disabled st = true <-> pageNumber st = numPages st)
  /\ forall bs : list nav,
       1 <= pageNumber (navigate st bs) <= numPages (navigate st bs)
       /\ numPages (navigate st bs) = numPages st.
Proof.
  intros Hr. unfold previous_disabled, next_disabled.
  split; [rewrite Z.leb_le; lia|].
  split; [rewrite Z.geb_le; lia|].
  intros bs. revert st Hr.
  induction bs as [|b bs IH]; intros st Hr; [by simpl|].
  simpl. destruct (nav_click_in_range st b Hr) as [Hr' Hn].
  destruct (IH _ Hr') as [IH1 IH2]. split; [done|congruence].
Qed.

(** ** The save operation *)

Lemma setIsUploading_not_declared :
  declared "setIsUploading" = false /\ declared "isUploading" = false.
Proof. split; reflexivity. Qed.

Lemma call_setIsUploading :
  call_identifier "setIsUploading" = throw (ReferenceError "setIsUploading").
Proof. reflexivity. Qed.

(** C2. Neither [setIsUploading] nor [isUploading] is bound in the module or
    in the component, and the first statement of [handleSaveFields] calls
    [setIsUploading]: from every render and every state of the store the
    handler completes with a ReferenceError, with no request issued (so no
    delete and no insert), no notification shown, and the stored rows and
    the in-memory state as they were. *)
Theorem save_always_throws_reference_error (template : PDFTemplate.t)
    (st : State) (s : System) :
  let out := handleSaveFields template st s in
  declared "setIsUploading" = false
  /\ declared "isUploading" = false
  /\ out.1 = Throw (ReferenceError "setIsUploading")
  /\ requests out.2 = requests s
  /\ toasts out.2 = toasts s
  /\ table out.2 = table s
  /\ ui out.2 = ui s.
Proof.
  intros out. subst out. unfold handleSaveFields.
  unfold mbind, M_bind, bind. rewrite call_setIsUploading.
  by repeat split.
Qed.

(** What the guarded block does once it runs: delete, then insert, then
    the success notification. *)
Lemma handleSaveFields_try_success (template : PDFTemplate.t) (st : State)
    (s : System) (rest : list reply) :
  let T := JStr (PDFTemplate.id template) in
  let out := handleSaveFields_try template st (scripted (Succeeds :: Succeeds :: rest) s) in
  out.1 = Ok tt
  /\ requests out.2
     = requests s ++ [DeleteWhere T; Insert (map (insert_row template) (fields st))]
  /\ toasts out.2 = toasts s ++ [toast_success "Fields saved successfully"]
  /\ table out.2
     = filter (fun row => prop row "template_id" <> T) (table s)
       ++ store_rows (next_id s) (map json (map (insert_row template) (fields st)))
  /\ ui out.2 = ui s.
Proof.
  intros T out. subst T out. unfold handleSaveFields_try. run_handler.
  rewrite <- app_assoc. by repeat split.
Qed.





(** ** Loading the fields *)


Lemma loadFields_succeeds (template : PDFTemplate.t) (s : System) (rest : list reply) :
  let out := loadFields template (scripted (Succeeds :: rest) s) in
  out.1 = Ok tt
  /\ fields (ui out.2)
     = filter (fun row => prop row "template_id" = JStr (PDFTemplate.id template)) (table s)
  /\ toasts out.2 = toasts s.
Proof. intros out. subst out. unfold loadFields. run_handler. by repeat split. Qed.

(** ** Failures of remote calls *)


(** * The concrete session *)

Example one_field_fields : fields one_field = [field_40_60].
Proof. reflexivity. Qed.

Example field_40_60_attributes :
  prop field_40_60 "x" = JNum 40
  /\ prop field_40_60 "y" = JNum 60
  /\ prop field_40_60 "width" = JNum 100
  /\ prop field_40_60 "height" = JNum 20
  /\ prop field_40_60 "page" = JNum 2
  /\ prop field_40_60 "type" = JStr "editable"
  /\ prop field_40_60 "id" = JStr "i".
Proof. vm_compute. by repeat split. Qed.

(** C3 as stated fails: two creates that draw the same number carry the
    same identifier; the collection starts with pairwise-distinct
    identifiers (it is empty) and ends with a duplicate. *)
Lemma same_draw_twice_duplicates_identifier :
  let acts := [Create rect0 pointer_50_80 "0.i"; Create rect0 pointer_55_85 "0.i"] in
  NoDup (ids (fields page2))
  /\ ids (fields (run template1 page2 acts)) = [JStr "i"; JStr "i"]
  /\ ~ NoDup (ids (fields (run template1 page2 acts))).
Proof.
  assert (Hids : ids (fields (run template1 page2
                   [Create rect0 pointer_50_80 "0.i"; Create rect0 pointer_55_85 "0.i"]))
                 = [JStr "i"; JStr "i"]) by (vm_compute; reflexivity).
  split; [apply NoDup_nil_2|]. split; [exact Hids|].
  rewrite Hids. intros Hnd. apply NoDup_cons in Hnd as [Hin _].
  apply Hin. apply list_elem_of_singleton. reflexivity.
Qed.

(** C7 as stated fails: on page 1 the overlay still holds the region of a
    field of page 2, where the overlay restricted to the displayed page is
    empty. *)
Lemma overlay_shows_field_of_another_page :
  pageNumber back_on_page1 = 1
  /\ fields back_on_page1 = [field_40_60]
  /\ prop field_40_60 "page" = JNum 2
  /\ overlay back_on_page1 = [region_of back_on_page1 field_40_60]
  /\ overlay_of_current_page back_on_page1 = []
  /\ overlay back_on_page1 <> overlay_of_current_page back_on_page1.
Proof.
  assert (Hspec : overlay_of_current_page back_on_page1 = [])
    by (vm_compute; reflexivity).
  split; [reflexivity|]. split; [reflexivity|].
  split; [vm_compute; reflexivity|]. split; [reflexivity|].
  split; [exact Hspec|]. rewrite Hspec. discriminate.
Qed.

Lemma overlay_renders_every_field_witness :
  exists r : Region,
    overlay back_on_page1 !! 0%nat = Some r
    /\ style_left r = JNum 40
    /\ style_top r = JNum 60
    /\ style_width r = JNum 100
    /\ style_height r = JNum 20.
Proof.
  destruct (overlay_renders_every_field back_on_page1) as [_ H].
  destruct (H 0%nat field_40_60 eq_refl) as (r & Hr & _ & Hx & Hy & Hw & Hh & _).
  exists r. split; [exact Hr|].
  destruct field_40_60_attributes as (Fx & Fy & Fw & Fh & _).
  rewrite Hx, Hy, Hw, Hh. by repeat split.
Defined.

Lemma edit_changes_only_that_attribute_witness :
  exists f' : PDFField,
    fields (commit one_field (handleFieldChange one_field "45" (JStr "i") K_x)) !! 0%nat
    = Some f'
    /\ f' !! "x" = Some (JStr "45")
    /\ f' !! "y" = field_40_60 !! "y".
Proof.
  destruct (edit_changes_only_that_attribute one_field (JStr "i") K_x "45")
    as (_ & H & _).
  destruct (H 0%nat field_40_60 eq_refl) as (f' & Hf' & _ & Hedit).
  destruct field_40_60_attributes as (_ & _ & _ & _ & _ & _ & Fid).
  destruct (Hedit Fid) as [Hx Hothers].
  exists f'. split; [exact Hf'|]. split; [exact Hx|].
  apply Hothers. discriminate.
Defined.

Lemma navigation_stays_in_range_witness :
  1 <= pageNumber page2 <= numPages page2
  /\ 1 <= pageNumber (navigate page2 [Next; Next; Next; Previous])
     <= numPages (navigate page2 [Next; Next; Next; Previous]).
Proof.
  assert (Hr : 1 <= pageNumber page2 <= numPages page2) by (simpl; lia).
  split; [exact Hr|].
  destruct (navigation_stays_in_range page2 Hr) as (_ & _ & H).
  apply H.
Defined.

(** C8, on the code. A click on the region of the only field of the
    collection runs [handleFieldClick] and then, as the click reaches the
    container, [handleAddField]: the collection has two fields afterwards
    and the selected field is the new one, not the one clicked. *)
Theorem click_on_existing_field_creates_another :
  let st' :=
    click template1 one_field (Some rect0) pointer_55_85 "0.7k" (FieldRegion field_40_60) in
  let nf := newField template1 one_field rect0 pointer_55_85 "0.7k" in
  fields one_field = [field_40_60]
  /\ fields st' = [field_40_60; nf]
  /\ fields st' <> fields one_field
  /\ selectedField st' = Some nf
  /\ selectedField st' <> Some field_40_60.
Proof.
  intros st' nf.
  split; [reflexivity|]. split; [reflexivity|].
  split; [discriminate|]. split; [reflexivity|].
  intros H.
  apply (f_equal (fun o : option PDFField => (fun f => prop f "id") <$> o)) in H.
  vm_compute in H. discriminate.
Qed.

(** C1, on the code. With one stored row for the template and one field in
    memory, [handleSaveFields] completes with the ReferenceError: no request
    is issued and the stored row stays, where the guarded block on its own
    issues the delete and then the insert of the in-memory field. *)
Theorem save_issues_no_request :
  let out := handleSaveFields template1 one_field system1 in
  let block := handleSaveFields_try template1 one_field system1 in
  out.1 = Throw (ReferenceError "setIsUploading")
  /\ requests out.2 = []
  /\ table out.2 = [stored_row]
  /\ requests block.2
     = [DeleteWhere (JStr "T1"); Insert [insert_row template1 field_40_60]].
Proof. by repeat split. Qed.

(** * Further properties of the handlers *)

(** ** Deleting, beyond the unique case *)

(** X1. Deleting an identifier that no field carries leaves the collection
    as it is; the selection is cleared and edit mode is left all the same. *)
Theorem delete_absent_id_keeps_fields (st : State) (I : jsval) :
  I ∉ ids (fields st) ->
  let st' := commit st (handleFieldDelete st I) in
  fields st' = fields st
  /\ selectedField st' = None
  /\ isEditing st' = false.
Proof.
  intros Hnot st'. subst st'. simpl.
  split; [by apply filter_other_ids|]. by split.
Qed.

Lemma delete_absent_id_keeps_fields_witness :
  (JStr "zz" ∉ ids (fields one_field))
  /\ fields (commit one_field (handleFieldDelete one_field (JStr "zz")))
     = fields one_field.
Proof.
  assert (Hnot : JStr "zz" ∉ ids (fields one_field)).
  { intros Hin. vm_compute in Hin. apply list_elem_of_singleton in Hin. discriminate. }
  split; [exact Hnot|].
  apply (delete_absent_id_keeps_fields one_field (JStr "zz") Hnot).
Defined.

Lemma ids_filter (I : jsval) (l : list PDFField) :
  ids (filter (fun field => prop field "id" <> I) l)
  = filter (fun i => i <> I) (ids l).
Proof.
  induction l as [|f l IH]; [done|]. simpl.
  destruct (decide (prop f "id" = I)) as [Heq|Hne].
  - rewrite !filter_cons_False by (intros H; by apply H). exact IH.
  - rewrite !filter_cons_True by done. simpl. by rewrite IH.
Qed.

(** X2. Whether or not identifiers are distinct, the delete action on [I]
    removes every field whose identifier is [I] and no other: the
    identifiers left are those of the collection, in order, without the
    occurrences of [I]; [I] is gone, and the fields left are a sublist of
    the collection. *)
Theorem delete_removes_every_field_with_id (st : State) (I : jsval) :
  let st' := commit st (handleFieldDelete st I) in
  ids (fields st') = filter (fun i => i <> I) (ids (fields st))
  /\ (I ∉ ids (fields st'))
  /\ fields st' `sublist_of` fields st.
Proof.
  intros st'. subst st'. simpl. split; [apply ids_filter|]. split.
  - rewrite ids_filter. intros Hin. apply list_elem_of_filter in Hin as [Hne _].
    by apply Hne.
  - apply sublist_filter.
Qed.

(** X3. A click on the trash button of a field removes nothing: the
    button sits inside the field region inside the container, so after
    [handleFieldDelete] the same click runs [handleFieldClick] and
    [handleAddField], whose [setFields] is computed from the collection of
    the render and is committed last. Every field of the collection is
    still there, one new field is appended, and that new field is selected in
    edit mode. *)
Theorem trash_click_removes_nothing (template : PDFTemplate.t) (st : State)
    (rect : DOMRect) (e : MouseEvent) (random36 : string) (field : PDFField) :
  let st' := click template st (Some rect) e random36 (TrashButton field) in
  let nf := newField template st rect e random36 in
  fields st' = fields st ++ [nf]
  /\ length (fields st') = S (length (fields st))
  /\ fields st `prefix_of` fields st'
  /\ selectedField st' = Some nf
  /\ isEditing st' = true.
Proof.
  intros st' nf.
  assert (Hf : fields st' = fields st ++ [nf]) by reflexivity.
  split; [exact Hf|]. rewrite Hf. split; [|split].
  - rewrite length_app. simpl. lia.
  - by apply prefix_app_r.
  - by split.
Qed.

(** X4. Handler level: [handleAddField] followed, in the next render, by
    [handleFieldDelete] called on its own with the new identifier is a round
    trip. When the drawn identifier is carried by no field of the
    collection, the collection is given back, with no selection and edit
    mode off. *)
Theorem create_then_delete_restores (template : PDFTemplate.t) (st : State)
    (rect : DOMRect) (e : MouseEvent) (random36 : string) :
  new_id random36 ∉ ids (fields st) ->
  let st' := run template st [Create rect e random36; Delete (new_id random36)] in
  fields st' = fields st
  /\ selectedField st' = None
  /\ isEditing st' = false.
Proof.
  intros Hfresh st'. subst st'. simpl.
  split; [|by split].
  rewrite filter_app, filter_other_ids by done.
  rewrite filter_cons_False, filter_nil.
  - apply app_nil_r.
  - intros H. apply H. apply newField_id.
Qed.

Lemma create_then_delete_restores_witness :
  (new_id "0.7k" ∉ ids (fields one_field))
  /\ fields (run template1 one_field
               [Create rect0 pointer_210_160 "0.7k"; Delete (new_id "0.7k")])
     = [field_40_60].
Proof.
  assert (Hfresh : new_id "0.7k" ∉ ids (fields one_field)).
  { intros Hin. vm_compute in Hin. apply list_elem_of_singleton in Hin. discriminate. }
  split; [exact Hfresh|].
  apply (create_then_delete_restores template1 one_field rect0 pointer_210_160
           "0.7k" Hfresh).
Defined.

(** ** Editing, composed *)

Lemma edit_keeps_id (input : InspectorInput) (v : string) (f : PDFField) :
  prop (<[key_name (input_key input) := JStr v]> f) "id" = prop f "id".
Proof.
  unfold prop. rewrite lookup_insert_ne; [done|]. apply inspector_key_not_id.
Qed.

Lemma input_key_name_inj (i j : InspectorInput) :
  key_name (input_key i) = key_name (input_key j) -> i = j.
Proof. destruct i, j; simpl; intros H; first [reflexivity | discriminate H]. Qed.

Lemma state_eq (st st' : State) :
  numPages st = numPages st' ->
  pageNumber st = pageNumber st' ->
  fields st = fields st' ->
  selectedField st = selectedField st' ->
  isEditing st = isEditing st' ->
  st = st'.
Proof. destruct st, st'. simpl. by intros -> -> -> -> ->. Qed.

(** X5. An inspector edit bound to an identifier that no field carries
    changes nothing at all. *)
Theorem edit_absent_id_changes_nothing (st : State) (I : jsval)
    (K : PDFFieldKey) (v : string) :
  I ∉ ids (fields st) ->
  commit st (handleFieldChange st v I K) = st.
Proof.
  intros Hnot. apply state_eq; try reflexivity.
  rewrite handleFieldChange_fields.
  induction (fields st) as [|f l IH]; [done|]. simpl in *.
  apply not_elem_of_cons in Hnot as [Hne Hl].
  unfold strict_eq at 1. rewrite bool_decide_eq_false_2 by congruence.
  by rewrite IH.
Qed.

Lemma edit_absent_id_changes_nothing_witness :
  (JStr "zz" ∉ ids (fields one_field))
  /\ commit one_field (handleFieldChange one_field "45" (JStr "zz") K_x) = one_field.
Proof.
  assert (Hnot : JStr "zz" ∉ ids (fields one_field)).
  { intros Hin. vm_compute in Hin. apply list_elem_of_singleton in Hin. discriminate. }
  split; [exact Hnot|].
  apply (edit_absent_id_changes_nothing one_field (JStr "zz") K_x "45" Hnot).
Defined.

(** X6. Of two successive edits of the same inspector control on the same
    identifier the later one wins: the state is the one the second edit
    alone produces. *)
Theorem later_edit_wins (template : PDFTemplate.t) (st : State) (I : jsval)
    (input : InspectorInput) (v1 v2 : string) :
  run template st [Edit I input v1; Edit I input v2]
  = run template st [Edit I input v2].
Proof.
  apply state_eq; try reflexivity. simpl.
  rewrite map_map. apply map_ext. intros f.
  destruct (strict_eq (prop f "id") I) eqn:Hid.
  - rewrite edit_keeps_id, Hid. apply insert_insert_eq.
  - by rewrite Hid.
Qed.

(** X7. Two inspector edits commute when they are bound to different
    identifiers or go through different controls. *)
Theorem edits_commute (template : PDFTemplate.t) (st : State) (I1 I2 : jsval)
    (i1 i2 : InspectorInput) (v1 v2 : string) :
  I1 <> I2 \/ i1 <> i2 ->
  run template st [Edit I1 i1 v1; Edit I2 i2 v2]
  = run template st [Edit I2 i2 v2; Edit I1 i1 v1].
Proof.
  intros Hdiff. apply state_eq; try reflexivity. simpl.
  rewrite !map_map. apply map_ext. intros f.
  destruct (strict_eq (prop f "id") I1) eqn:H1;
    destruct (strict_eq (prop f "id") I2) eqn:H2;
    rewrite ?edit_keeps_id, ?H1, ?H2; try reflexivity.
  apply insert_insert_ne.
  destruct Hdiff as [HI|Hi].
  - unfold strict_eq in H1, H2.
    apply bool_decide_eq_true_1 in H1. apply bool_decide_eq_true_1 in H2.
    congruence.
  - intros Heq. apply Hi. by apply input_key_name_inj.
Qed.

Lemma edits_commute_witness :
  run template1 one_field [Edit (JStr "i") XInput "45"; Edit (JStr "i") NameInput "Date"]
  = run template1 one_field [Edit (JStr "i") NameInput "Date"; Edit (JStr "i") XInput "45"].
Proof.
  apply (edits_commute template1 one_field (JStr "i") (JStr "i") XInput NameInput
           "45" "Date").
  right. discriminate.
Defined.

(** X8. An inspector edit leaves the overlay's keys, highlights and open
    inspectors where they were, position by position: the inspector stays
    open on the field being edited although [selectedField] still holds the
    object from before the edit. *)
Theorem edit_keeps_overlay_selection (template : PDFTemplate.t) (st : State)
    (I : jsval) (input : InspectorInput) (v : string) :
  let st' := step template st (Edit I input v) in
  map key (overlay st') = map key (overlay st)
  /\ map ring (overlay st') = map ring (overlay st)
  /\ map inspector (overlay st') = map inspector (overlay st)
  /\ selectedField st' = selectedField st.
Proof.
  intros st'. subst st'. unfold overlay. simpl.
  rewrite !map_map.
  repeat split; apply map_ext; intros f; simpl;
    destruct (strict_eq (prop f "id") I); by rewrite ?edit_keeps_id.
Qed.

(** ** Highlight and inspector in the overlay *)

Lemma ring_count (st : State) (l : list PDFField) :
  NoDup (ids l) ->
  (length (filter (fun r => ring r = true) (map (region_of st) l)) <= 1)%nat
  /\ (selected_id st ∉ ids l ->
      filter (fun r => ring r = true) (map (region_of st) l) = []).
Proof.
  induction l as [|f l IH]; intros Hnd; [by split; [simpl; lia|]|].
  simpl in Hnd. apply NoDup_cons in Hnd as [Hf Hnd].
  destruct (IH Hnd) as [IH1 IH2]. simpl.
  destruct (decide (selected_id st = prop f "id")) as [Heq|Hne].
  - rewrite filter_cons_True
      by (simpl; unfold strict_eq; by apply bool_decide_eq_true_2).
    rewrite IH2 by (by rewrite Heq). split; [simpl; lia|].
    intros Hnot. exfalso. apply Hnot. rewrite Heq. by left.
  - rewrite filter_cons_False
      by (simpl; unfold strict_eq; rewrite bool_decide_eq_false_2; done).
    split; [done|]. intros Hnot. apply IH2. intros Hin. apply Hnot. by right.
Qed.

Lemma inspector_within_ring (st : State) (l : list PDFField) :
  filter (fun r => inspector r = true) (map (region_of st) l)
  `sublist_of` filter (fun r => ring r = true) (map (region_of st) l).
Proof.
  induction l as [|f l IH]; [done|]. simpl.
  destruct (strict_eq (selected_id st) (prop f "id")) eqn:Hring.
  - rewrite (filter_cons_True (fun r => ring r = true)) by done.
    destruct (isEditing st) eqn:Hed.
    + rewrite filter_cons_True by (simpl; by rewrite Hring, Hed).
      by apply sublist_skip.
    + rewrite filter_cons_False by (simpl; rewrite Hring, Hed; discriminate).
      by apply sublist_cons.
  - rewrite !filter_cons_False by (simpl; rewrite Hring; discriminate).
    exact IH.
Qed.

(** X9. When the identifiers of the collection are pairwise distinct, at
    most one region of the overlay is highlighted and at most one shows the
    inspector form. *)
Theorem at_most_one_inspector (st : State) :
  NoDup (ids (fields st)) ->
  (length (filter (fun r => ring r = true) (overlay st)) <= 1)%nat
  /\ (length (filter (fun r => inspector r = true) (overlay st)) <= 1)%nat.
Proof.
  intros Hnd. destruct (ring_count st (fields st) Hnd) as [Hring _].
  split; [exact Hring|].
  etrans; [|exact Hring].
  apply sublist_length, inspector_within_ring.
Qed.

Lemma at_most_one_inspector_witness :
  NoDup (ids (fields two_fields))
  /\ length (overlay two_fields) = 2%nat
  /\ (length (filter (fun r => ring r = true) (overlay two_fields)) <= 1)%nat
  /\ (length (filter (fun r => inspector r = true) (overlay two_fields)) <= 1)%nat.
Proof.
  assert (Hnd : NoDup (ids (fields two_fields))).
  { assert (Hids : ids (fields two_fields) = [JStr "i"; JStr "7k"])
      by (vm_compute; reflexivity).
    rewrite Hids. apply NoDup_cons. split; [|apply NoDup_singleton].
    intros Hin. apply list_elem_of_singleton in Hin. discriminate. }
  split; [exact Hnd|]. split; [reflexivity|].
  apply (at_most_one_inspector two_fields Hnd).
Defined.

(** X10. After a click on the surface that draws an identifier carried by
    no field of the collection, exactly the region of the new field, the
    last one, shows the inspector form and the highlight. *)
Theorem create_opens_inspector_on_new_field (template : PDFTemplate.t) (st : State)
    (rect : DOMRect) (e : MouseEvent) (random36 : string) :
  new_id random36 ∉ ids (fields st) ->
  let st' := click template st (Some rect) e random36 PageSurface in
  map inspector (overlay st') = replicate (length (fields st)) false ++ [true]
  /\ map ring (overlay st') = replicate (length (fields st)) false ++ [true].
Proof.
  intros Hfresh st'.
  assert (Hsel : selected_id st' = new_id random36) by apply newField_id.
  assert (Hed : isEditing st' = true) by reflexivity.
  assert (Hov : overlay st'
                = map (region_of st') (fields st)
                  ++ [region_of st' (newField template st rect e random36)])
    by (unfold overlay; subst st'; simpl; by rewrite map_app).
  assert (Hold : map ring (map (region_of st') (fields st))
                 = replicate (length (fields st)) false).
  { clear Hov. induction (fields st) as [|f l IH]; [done|]. simpl in *.
    apply not_elem_of_cons in Hfresh as [Hne Hl].
    rewrite IH by done. f_equal.
    rewrite Hsel. unfold strict_eq. by apply bool_decide_eq_false_2. }
  assert (Hold' : map inspector (map (region_of st') (fields st))
                  = replicate (length (fields st)) false).
  { rewrite <- Hold. rewrite !map_map. apply map_ext_Forall.
    apply Forall_forall. intros f Hf. simpl. rewrite ?Hed.
    by rewrite andb_true_r. }
  rewrite Hov, !map_app, Hold, Hold'. simpl.
  rewrite Hsel, newField_id. unfold strict_eq.
  rewrite bool_decide_eq_true_2 by done. by rewrite ?Hed.
Qed.

Lemma create_opens_inspector_on_new_field_witness :
  (new_id "0.7k" ∉ ids (fields one_field))
  /\ map inspector
       (overlay (click template1 one_field (Some rect0) pointer_55_85 "0.7k" PageSurface))
     = [false; true].
Proof.
  assert (Hfresh : new_id "0.7k" ∉ ids (fields one_field)).
  { intros Hin. vm_compute in Hin. apply list_elem_of_singleton in Hin. discriminate. }
  split; [exact Hfresh|].
  apply (create_opens_inspector_on_new_field template1 one_field rect0 pointer_55_85
           "0.7k" Hfresh).
Defined.

(** ** Navigation, beyond the range *)

Lemma nav_click_cases (st : State) (b : nav) :
  numPages (nav_click st b) = numPages st
  /\ fields (nav_click st b) = fields st
  /\ selectedField (nav_click st b) = selectedField st
  /\ isEditing (nav_click st b) = isEditing st
  /\ pageNumber (nav_click st b)
     = match b with
       | Previous => if previous_disabled st then pageNumber st else pageNumber st - 1
       | Next => if next_disabled st then pageNumber st else pageNumber st + 1
       end.
Proof.
  unfold nav_click.
  destruct b; [destruct (previous_disabled st)|destruct (next_disabled st)];
    by repeat split.
Qed.

(** X11. Navigation changes the page number only: the field collection,
    the selection, edit mode and the page count are what they were, so an
    open inspector stays open across page changes. *)
Theorem navigation_keeps_fields_and_selection (st : State) (bs : list nav) :
  fields (navigate st bs) = fields st
  /\ selectedField (navigate st bs) = selectedField st
  /\ isEditing (navigate st bs) = isEditing st
  /\ numPages (navigate st bs) = numPages st.
Proof.
  revert st. induction bs as [|b bs IH]; intros st; [done|]. simpl.
  destruct (nav_click_cases st b) as (Hn & Hf & Hs & He & _).
  destruct (IH (nav_click st b)) as (IHf & IHs & IHe & IHn).
  repeat split; congruence.
Qed.

(** X12. From any state, in range or not, navigation never takes the page
    number above the larger of the starting page and the page count, nor
    below the smaller of the starting page and 1. *)
Theorem navigation_never_overshoots (st : State) (bs : list nav) :
  Z.min (pageNumber st) 1 <= pageNumber (navigate st bs)
  <= Z.max (pageNumber st) (numPages st).
Proof.
  revert st. induction bs as [|b bs IH]; intros st; [simpl; lia|]. simpl.
  destruct (nav_click_cases st b) as (Hn & _ & _ & _ & Hp).
  specialize (IH (nav_click st b)). rewrite Hn, Hp in IH.
  unfold previous_disabled, next_disabled in IH.
  destruct b.
  - destruct (Z.leb_spec (pageNumber st) 1); lia.
  - destruct (Z.geb_spec (pageNumber st) (numPages st)); lia.
Qed.

(** X13. While the page count is at most 1 (the initial 0 before the
    document has loaded, or a one-page document) and page 1 is displayed,
    both buttons are disabled and no sequence of navigation clicks changes
    the state. *)
Theorem navigation_without_pages_changes_nothing (st : State) (bs : list nav) :
  pageNumber st = 1 ->
  numPages st <= 1 ->
  previous_disabled st = true
  /\ next_disabled st = true
  /\ navigate st bs = st.
Proof.
  intros Hp Hn.
  assert (Hprev : previous_disabled st = true)
    by (unfold previous_disabled; apply Z.leb_le; lia).
  assert (Hnext : next_disabled st = true)
    by (unfold next_disabled; apply Z.geb_le; lia).
  split; [exact Hprev|]. split; [exact Hnext|].
  induction bs as [|b bs IH]; [done|]. simpl.
  assert (Hb : nav_click st b = st)
    by (unfold nav_click; destruct b; by rewrite ?Hprev, ?Hnext).
  by rewrite Hb.
Qed.

Lemma navigation_without_pages_changes_nothing_witness :
  navigate initialState [Next; Next; Previous] = initialState.
Proof.
  apply (navigation_without_pages_changes_nothing initialState [Next; Next; Previous]).
  - reflexivity.
  - simpl. lia.
Defined.

Lemma navigate_replicate (st : State) (k : nat) :
  1 <= pageNumber st <= numPages st ->
  pageNumber (navigate st (replicate k Next))
  = Z.min (pageNumber st + Z.of_nat k) (numPages st)
  /\ pageNumber (navigate st (replicate k Previous))
     = Z.max (pageNumber st - Z.of_nat k) 1.
Proof.
  revert st. induction k as [|k IH]; intros st Hr; [simpl; lia|].
  simpl replicate. simpl navigate.
  destruct (nav_click_in_range st Next Hr) as [HrN HnN].
  destruct (nav_click_in_range st Previous Hr) as [HrP HnP].
  destruct (IH _ HrN) as [IHN _]. destruct (IH _ HrP) as [_ IHP].
  destruct (nav_click_cases st Next) as (_ & _ & _ & _ & HpN).
  destruct (nav_click_cases st Previous) as (_ & _ & _ & _ & HpP).
  rewrite IHN, IHP, HnN, HpN, HpP.
  unfold previous_disabled, next_disabled.
  destruct (Z.leb_spec (pageNumber st) 1);
    destruct (Z.geb_spec (pageNumber st) (numPages st)); lia.
Qed.

(** X14. With the page number in range, [k] clicks on "Next" lead to page
    min(page + k, numPages) and [k] clicks on "Previous" to page
    max(page - k, 1): the buttons saturate at the ends. *)
Theorem navigation_saturates (st : State) (k : nat) :
  1 <= pageNumber st <= numPages st ->
  pageNumber (navigate st (replicate k Next))
  = Z.min (pageNumber st + Z.of_nat k) (numPages st)
  /\ pageNumber (navigate st (replicate k Previous))
     = Z.max (pageNumber st - Z.of_nat k) 1.
Proof. intros Hr. split; by apply navigate_replicate. Qed.

Lemma navigation_saturates_witness :
  pageNumber (navigate page2 (replicate 5 Next)) = Z.min (2 + 5) 3
  /\ pageNumber (navigate page2 (replicate 5 Previous)) = Z.max (2 - 5) 1.
Proof.
  apply (navigation_saturates page2 5). simpl. lia.
Defined.

(** X15. Below the last page, "Next" followed by "Previous" comes back to
    the same state; above the first page, so does "Previous" followed by
    "Next". *)
Theorem next_previous_round_trip (st : State) :
  1 <= pageNumber st <= numPages st ->
  (pageNumber st < numPages st -> navigate st [Next; Previous] = st)
  /\ (1 < pageNumber st -> navigate st [Previous; Next] = st).
Proof.
  intros Hr. split; intros Hlt; simpl.
  - destruct (nav_click_cases st Next) as (Hn & Hf & Hs & He & Hp).
    destruct (nav_click_cases (nav_click st Next) Previous)
      as (Hn' & Hf' & Hs' & He' & Hp').
    apply state_eq; try congruence.
    rewrite Hp', Hp. unfold previous_disabled, next_disabled. rewrite Hp.
    unfold next_disabled.
    destruct (Z.geb_spec (pageNumber st) (numPages st)); [lia|].
    destruct (Z.leb_spec (pageNumber st + 1) 1); lia.
  - destruct (nav_click_cases st Previous) as (Hn & Hf & Hs & He & Hp).
    destruct (nav_click_cases (nav_click st Previous) Next)
      as (Hn' & Hf' & Hs' & He' & Hp').
    apply state_eq; try congruence.
    rewrite Hp', Hp. unfold previous_disabled, next_disabled. rewrite Hp, Hn.
    unfold previous_disabled.
    destruct (Z.leb_spec (pageNumber st) 1); [lia|].
    destruct (Z.geb_spec (pageNumber st - 1) (numPages st)); lia.
Qed.

Lemma next_previous_round_trip_witness :
  navigate page2 [Next; Previous] = page2
  /\ navigate page2 [Previous; Next] = page2.
Proof.
  assert (Hr : 1 <= pageNumber page2 <= numPages page2) by (simpl; lia).
  destruct (next_previous_round_trip page2 Hr) as [H1 H2].
  split; [apply H1|apply H2]; simpl; lia.
Defined.

(** ** Loading and saving, for every reply of the store *)

(** X16. A successful load replaces the in-memory collection, whatever it
    held, by the stored rows whose template_id is the current template's;
    every loaded field carries that template_id. The selection, edit mode
    and the page number are not reset, no notification is shown and the
    table is only read. *)
Theorem load_replaces_collection (template : PDFTemplate.t) (s : System)
    (rest : list reply) :
  let T := JStr (PDFTemplate.id template) in
  let out := loadFields template (scripted (Succeeds :: rest) s) in
  out.1 = Ok tt
  /\ fields (ui out.2) = filter (fun row => prop row "template_id" = T) (table s)
  /\ Forall (fun f => prop f "template_id" = T) (fields (ui out.2))
  /\ selectedField (ui out.2) = selectedField (ui s)
  /\ isEditing (ui out.2) = isEditing (ui s)
  /\ pageNumber (ui out.2) = pageNumber (ui s)
  /\ requests out.2 = requests s ++ [Select T]
  /\ toasts out.2 = toasts s
  /\ table out.2 = table s.
Proof.
  intros T out. subst T out. unfold loadFields. run_handler.
  repeat split; try done.
  apply Forall_forall. intros f Hf. by apply list_elem_of_filter in Hf as [Hf _].
Qed.

(** X17. Whatever the store replies, [loadFields] completes normally,
    issues exactly one select for the current template and leaves the table
    alone; either no notification is added, or one error notification is
    added and the in-memory state is unchanged. *)
Theorem load_never_throws (template : PDFTemplate.t) (s : System) :
  let out := loadFields template s in
  out.1 = Ok tt
  /\ requests out.2 = requests s ++ [Select (JStr (PDFTemplate.id template))]
  /\ table out.2 = table s
  /\ (toasts out.2 = toasts s
      \/ exists msg : string,
           toasts out.2 = toasts s ++ [toast_error msg] /\ ui out.2 = ui s).
Proof.
  intros out. subst out. destruct s as [u t n rs qs ts].
  unfold loadFields. run_handler.
  destruct rs as [|[|[] msg] rs]; simpl; repeat split; eauto.
Qed.


(** X19. The row sent for a field has [id] undefined and [template_id]
    the current template's, whatever the field held there; every other
    property is the field's. The row does not depend on the client
    identifier, and building it twice is building it once. *)
Theorem insert_row_payload (template : PDFTemplate.t) (f : PDFField) (v : jsval) :
  let row := insert_row template f in
  prop row "id" = JUndefined
  /\ prop row "template_id" = JStr (PDFTemplate.id template)
  /\ delete "id" (delete "template_id" row) = delete "id" (delete "template_id" f)
  /\ insert_row template (<["id" := v]> f) = row
  /\ insert_row template row = row.
Proof.
  intros row. subst row. unfold insert_row, prop.
  split; [by rewrite lookup_insert_eq|].
  split; [rewrite lookup_insert_ne by done; by rewrite lookup_insert_eq|].
  split; [|split].
  - apply map_eq. intros k.
    destruct (decide (k = "id")) as [->|Hid]; [by rewrite !lookup_delete_eq|].
    rewrite !(lookup_delete_ne _ "id" k) by done.
    destruct (decide (k = "template_id")) as [->|Ht]; [by rewrite !lookup_delete_eq|].
    rewrite !(lookup_delete_ne _ "template_id" k) by done.
    by rewrite !lookup_insert_ne.
  - apply map_eq. intros k.
    destruct (decide (k = "id")) as [->|Hid]; [by rewrite !lookup_insert_eq|].
    rewrite !(lookup_insert_ne _ "id" k) by done.
    destruct (decide (k = "template_id")) as [->|Ht]; [by rewrite !lookup_insert_eq|].
    rewrite !(lookup_insert_ne _ "template_id" k) by done.
    by rewrite lookup_insert_ne.
  - apply map_eq. intros k.
    destruct (decide (k = "id")) as [->|Hid]; [by rewrite !lookup_insert_eq|].
    rewrite !(lookup_insert_ne _ "id" k) by done.
    destruct (decide (k = "template_id")) as [->|Ht]; [by rewrite !lookup_insert_eq|].
    rewrite !(lookup_insert_ne _ "template_id" k) by done.
    by rewrite !(lookup_insert_ne _ "id" k), !(lookup_insert_ne _ "template_id" k).
Qed.

(** ** The drawn identifier *)

Lemma substring_length (s : string) (n m : nat) :
  String.length (String.substring n m s) = Nat.min m (String.length s - n).
Proof.
  revert n m. induction s as [|c s IH]; intros n m.
  - destruct n, m; simpl; lia.
  - destruct n as [|n].
    + destruct m as [|m]; [reflexivity|]. simpl. rewrite IH. lia.
    + simpl. apply IH.
Qed.

(** X20. The identifier of a created field is a string of at most 13
    characters: what follows the first two characters of the printed draw,
    cut after 13. A draw that prints in two characters or fewer (the draw 0
    prints "0") yields the empty identifier. *)
Theorem new_id_length (random36 : string) :
  exists s : string,
    new_id random36 = JStr s
    /\ String.length s = Nat.min 13 (String.length random36 - 2)
    /\ (String.length s <= 13)%nat
    /\ ((String.length random36 <= 2)%nat -> s = "").
Proof.
  exists (String.substring 2 13 random36). split; [reflexivity|].
  split; [apply substring_length|]. split; [rewrite substring_length; lia|].
  intros Hshort.
  assert (Hlen : String.length (String.substring 2 13 random36) = 0%nat)
    by (rewrite substring_length; lia).
  by destruct (String.substring 2 13 random36).
Qed.

Lemma new_id_length_witness : new_id "0" = JStr "".
Proof.
  destruct (new_id_length "0") as (s & Hs & _ & _ & Hempty).
  rewrite Hs. f_equal. apply Hempty. simpl. lia.
Defined.

(** ** Sessions *)

Lemma handle_cases (template : PDFTemplate.t) (st : State) (ev : event) :
  match ev with
  | Click rect e random36 t =>
      fields (handle template st ev)
      = fields st ++ [newField template st rect e random36]
      /\ selectedField (handle template st ev)
         = Some (newField template st rect e random36)
      /\ isEditing (handle template st ev) = true
  | Change fieldId input value =>
      fields (handle template st ev)
      = map (fun field =>
               if strict_eq (prop field "id") fieldId
               then <[key_name (input_key input) := JStr value]> field else field)
            (fields st)
      /\ selectedField (handle template st ev) = selectedField st
      /\ isEditing (handle template st ev) = isEditing st
  | Navigate _ | DocumentLoaded _ =>
      fields (handle template st ev) = fields st
      /\ selectedField (handle template st ev) = selectedField st
      /\ isEditing (handle template st ev) = isEditing st
  end.
Proof.
  destruct ev as [rect e r t|I input v|b|n]; simpl.
  - by destruct t.
  - done.
  - destruct (nav_click_cases st b) as (_ & Hf & Hs & He & _). by repeat split.
  - done.
Qed.

(** X21. Every click inside the container, whatever its target (the
    surface, a field region or a trash button), adds exactly one field, and
    no event of a session removes one: the collection has grown by the
    number of clicks. *)
Theorem session_field_count (template : PDFTemplate.t) (st : State)
    (evs : list event) :
  length (fields (session template st evs)) = (length (fields st) + clicks evs)%nat.
Proof.
  revert st. induction evs as [|ev evs IH]; intros st; [unfold clicks; simpl; lia|].
  simpl. rewrite IH. pose proof (handle_cases template st ev) as H.
  unfold clicks.
  destruct ev as [rect e r t|I input v|b|n]; destruct H as (Hf & _ & _); rewrite Hf.
  - rewrite filter_cons_True by done. rewrite length_app. simpl. lia.
  - rewrite filter_cons_False by (simpl; discriminate). by rewrite length_map.
  - rewrite filter_cons_False by (simpl; discriminate). done.
  - rewrite filter_cons_False by (simpl; discriminate). done.
Qed.

(** X22. Once a click has happened inside the container, edit mode is on
    and some field is selected for the rest of the session: no event turns
    edit mode off or clears the selection. *)
Theorem session_stays_in_edit_mode (template : PDFTemplate.t) (st : State)
    (evs : list event) :
  (0 < clicks evs)%nat ->
  isEditing (session template st evs) = true
  /\ is_Some (selectedField (session template st evs)).
Proof.
  assert (Hkeep : forall evs st,
             isEditing st = true /\ is_Some (selectedField st) ->
             isEditing (session template st evs) = true
             /\ is_Some (selectedField (session template st evs))).
  { clear. intros evs. induction evs as [|ev evs IH]; intros st Hst; [done|].
    simpl. apply IH. pose proof (handle_cases template st ev) as H.
    destruct ev; destruct H as (_ & Hs & He); rewrite Hs, He; [eauto|done..]. }
  revert st. induction evs as [|ev evs IH]; intros st Hpos;
    [unfold clicks in Hpos; simpl in Hpos; lia|].
  simpl. pose proof (handle_cases template st ev) as H.
  unfold clicks in *.
  destruct ev as [rect e r t|I input v|b|n].
  - apply Hkeep. destruct H as (_ & Hs & He). rewrite Hs, He. eauto.
  - apply IH. by rewrite filter_cons_False in Hpos by (simpl; discriminate).
  - apply IH. by rewrite filter_cons_False in Hpos by (simpl; discriminate).
  - apply IH. by rewrite filter_cons_False in Hpos by (simpl; discriminate).
Qed.

Lemma session_stays_in_edit_mode_witness :
  isEditing
    (session template1 page2
       [Click rect0 pointer_50_80 "0.i" PageSurface;
        Click rect0 pointer_55_85 "0.7k" (TrashButton field_40_60);
        Navigate Next]) = true.
Proof.
  apply (session_stays_in_edit_mode template1 page2
           [Click rect0 pointer_50_80 "0.i" PageSurface;
            Click rect0 pointer_55_85 "0.7k" (TrashButton field_40_60);
            Navigate Next]).
  vm_compute. lia.
Defined.

(** X23. If every field of the collection carries the current template's
    identifier, so does every field after any session: created fields get
    it and no inspector control edits it. *)
Theorem session_keeps_template_id (template : PDFTemplate.t) (st : State)
    (evs : list event) :
  let T := JStr (PDFTemplate.id template) in
  Forall (fun f => prop f "template_id" = T) (fields st) ->
  Forall (fun f => prop f "template_id" = T) (fields (session template st evs)).
Proof.
  intros T. revert st. induction evs as [|ev evs IH]; intros st Hall; [done|].
  simpl. apply IH. pose proof (handle_cases template st ev) as H.
  destruct ev as [rect e r t|I input v|b|n]; destruct H as (Hf & _ & _); rewrite Hf.
  - apply Forall_app. split; [done|]. apply Forall_singleton.
    destruct (newField_lookup template st rect e r) as (_ & Ht & _).
    unfold prop. by rewrite Ht.
  - apply Forall_map. eapply Forall_impl; [exact Hall|]. intros f Hft. simpl.
    destruct (strict_eq (prop f "id") I); [|done].
    unfold prop in *. rewrite lookup_insert_ne; [done|]. by destruct input.
  - done.
  - done.
Qed.

Lemma session_keeps_template_id_witness :
  Forall (fun f => prop f "template_id" = JStr "T1")
    (fields (session template1 page2
               [Click rect0 pointer_50_80 "0.i" PageSurface;
                Change (JStr "i") NameInput "Date"])).
Proof.
  apply (session_keeps_template_id template1 page2
           [Click rect0 pointer_50_80 "0.i" PageSurface;
            Change (JStr "i") NameInput "Date"]).
  apply Forall_nil_2.
Defined.

(** ** The document reports its page count *)

(** X24. When a document of [n >= 1] pages has loaded into the freshly
    mounted component, page 1 of [n] is displayed, "Previous" is disabled,
    "Next" is disabled exactly for a one-page document, and [k] clicks on
    "Next" lead to page min(1 + k, n). *)
Theorem document_loaded_enables_navigation (n : Z) (k : nat) :
  1 <= n ->
  let st := commit initialState (onDocumentLoadSuccess n) in
  pageNumber st = 1
  /\ numPages st = n
  /\ previous_disabled st = true
  /\ (next_disabled st = true <-> n = 1)
  /\ pageNumber (navigate st (replicate k Next)) = Z.min (1 + Z.of_nat k) n.
Proof.
  intros Hn st.
  assert (Hr : 1 <= pageNumber st <= numPages st) by (subst st; simpl; lia).
  split; [reflexivity|]. split; [reflexivity|]. split; [reflexivity|]. split.
  - subst st. unfold next_disabled. simpl. rewrite Z.geb_le. lia.
  - destruct (navigate_replicate st k Hr) as [Hnext _]. exact Hnext.
Qed.

Lemma document_loaded_enables_navigation_witness :
  pageNumber (navigate (commit initialState (onDocumentLoadSuccess 3))
                (replicate 1 Next)) = Z.min (1 + 1) 3.
Proof.
  apply (document_loaded_enables_navigation 3 1). lia.
Defined.

(** ** Identifiers along a session *)

(** C3, as the code has it. Along any sequence of events the component
    dispatches (clicks on the surface, on a field region or on a trash
    button, inspector changes, navigation, the document loading) that starts
    from pairwise-distinct identifiers, the identifiers stay pairwise
    distinct provided every click draws an identifier that no field of the
    collection carries at that moment: each click inside the container,
    whatever its target, ends in [handleAddField]. *)
Theorem ids_stay_unique_in_session (template : PDFTemplate.t) (st : State)
    (evs : list event) :
  NoDup (ids (fields st)) ->
  fresh_clicks template st evs ->
  NoDup (ids (fields (session template st evs))).
Proof.
  revert st. induction evs as [|ev evs IH]; intros st Hnd Hfresh; [done|].
  destruct Hfresh as [Hev Hrest]. simpl. apply IH; [|done].
  pose proof (handle_cases template st ev) as H.
  destruct ev as [rect e r t|I input v|b|n]; destruct H as (Hf & _ & _); rewrite Hf.
  - apply ids_snoc_NoDup; [done|]. by rewrite newField_id.
  - by rewrite ids_edit.
  - done.
  - done.
Qed.

Lemma ids_stay_unique_in_session_witness :
  let evs :=
    [Click rect0 pointer_50_80 "0.i" PageSurface;
     Change (JStr "i") XInput "45";
     Click rect0 pointer_210_160 "0.7k" PageSurface;
     Click rect0 pointer_55_85 "0.2b" (FieldRegion field_40_60);
     Click rect0 pointer_215_165 "0.9z" (TrashButton field_200_140);
     Navigate Next] in
  NoDup (ids (fields page2))
  /\ fresh_clicks template1 page2 evs
  /\ ids (fields (session template1 page2 evs))
     = [JStr "i"; JStr "7k"; JStr "2b"; JStr "9z"]
  /\ NoDup (ids (fields (session template1 page2 evs))).
Proof.
  intros evs.
  assert (Hnd : NoDup (ids (fields page2))) by apply NoDup_nil_2.
  assert (Hfresh : fresh_clicks template1 page2 evs)
    by (apply (@bool_decide_unpack _ (fresh_clicks_dec template1 page2 evs));
        vm_compute; exact I).
  split; [exact Hnd|]. split; [exact Hfresh|].
  split; [vm_compute; reflexivity|].
  exact (ids_stay_unique_in_session template1 page2 evs Hnd Hfresh).
Defined.

(** ** The delete action *)

(** C6, on the code. Two fields with distinct identifiers, the inspector
    open on the second one. [handleFieldDelete] on its own would leave the
    first field only, with no selection and edit mode off; the click on the
    trash button, the one place that calls it, goes on to [handleFieldClick]
    and [handleAddField]: both fields are still in the collection, a third
    one is appended and selected, and edit mode is on. *)
Theorem trash_click_keeps_the_field :
  let alone := commit two_fields (handleFieldDelete two_fields (JStr "7k")) in
  let st' :=
    click template1 two_fields (Some rect0) pointer_215_165 "0.9z"
      (TrashButton field_200_140) in
  let nf := newField template1 two_fields rect0 pointer_215_165 "0.9z" in
  fields two_fields = [field_40_60; field_200_140]
  /\ ids (fields two_fields) = [JStr "i"; JStr "7k"]
  /\ selectedField two_fields = Some field_200_140
  /\ isEditing two_fields = true
  /\ fields alone = [field_40_60]
  /\ selectedField alone = None
  /\ isEditing alone = false
  /\ fields st' = [field_40_60; field_200_140; nf]
  /\ ids (fields st') = [JStr "i"; JStr "7k"; JStr "9z"]
  /\ selectedField st' = Some nf
  /\ isEditing st' = true.
Proof.
  intros alone st' nf.
  split; [reflexivity|]. split; [vm_compute; reflexivity|].
  split; [reflexivity|]. split; [reflexivity|].
  split; [vm_compute; reflexivity|]. split; [reflexivity|]. split; [reflexivity|].
  split; [reflexivity|]. split; [vm_compute; reflexivity|].
  split; reflexivity.
Qed.
